(** * cicd-demo: the request dispatcher of the Express application

    The development embeds [src/app.js] and [src/routes/index.js] together
    with the part of the Express 4 runtime those two files rely on (the
    README pins express ^4.18.2):

    - [JS]      : JavaScript values, truthiness, [||], property reads,
                  [decodeURIComponent], the conversion of a value to a
                  number and of a number to a string;
    - [Express] : the response object, path patterns, the router's scan
                  over its routes, the application's middleware stack;
    - the application itself: [routes], [error_handler], [not_found], [app].

    What the runtime contributes, beside calling the layers in the order
    of their registration: a route registered with [router.get] also
    serves HEAD; routes are matched without regard to case and to one
    trailing slash; a parameter is percent-decoded before the handler sees
    it, and a parameter that does not decode is a fault of status 400; an
    OPTIONS request that no handler answered is answered by the router
    with the methods of the routes on its path; error middleware (four
    arguments) only runs while a fault is under way, other layers only
    while none is; [res.json] and [res.send] raise when a response was
    sent before, and when the status code is not one Node writes.

    Conventions.  A JavaScript string is represented by the bytes of its
    UTF-8 encoding.  A request is its method and the path part of its URL
    (no query string, no body); a request received over HTTP has such a
    path, and the exit of the router for a URL without one is not
    modelled.  A response is what the application hands to [res.status]
    and [res.json] / [res.send]; what Node and Express make of it on the
    socket (headers, the empty body of the answer to HEAD) is below this
    model.  The body parsers and the static-file middleware are
    registered in [app] as they behave for a request without body and a
    [public] directory without files, where they hand the request on;
    [app_with] leaves the three open, for the statements that hold
    whatever the body is.  Path patterns are those made of literal
    characters and [:name] parameters. *)

From Stdlib Require Import String Ascii List Bool Arith NArith ZArith QArith Lia.
From Stdlib Require Import Sorting.Sorted.
From Stdlib Require Import Sorting.Permutation.
Import ListNotations.
Close Scope Q_scope.
Open Scope string_scope.

(* ------------------------------------------------------------------ *)
(** ** JavaScript values *)

Module JS.

#[warnings="-register-all"]
Inductive value : Type :=
| JUndefined
| JNull
| JBool (b : bool)
| JNum (q : Q)                       (* a finite number *)
| JNaN
| JStr (s : string)
| JDate (ms : Z)                     (* a Date object, epoch milliseconds *)
| JObj (props : list (string * value)).

Arguments JNum q%_Q.

(** An object as its list of own properties, in insertion order. *)
Definition object := list (string * value).

Fixpoint lookup {A : Type} (k : string) (l : list (string * A)) : option A :=
  match l with
  | [] => None
  | (k', v) :: l' => if String.eqb k k' then Some v else lookup k l'
  end.

(** [o.k]: a property that is absent reads as [undefined]. *)
Definition prop (o : object) (k : string) : value :=
  match lookup k o with
  | Some v => v
  | None => JUndefined
  end.

(** ToBoolean. *)
Definition truthy (v : value) : bool :=
  match v with
  | JUndefined | JNull | JNaN => false
  | JBool b => b
  | JNum q => negb (Qeq_bool q 0)
  | JStr s => negb (String.eqb s "")
  | JDate _ | JObj _ => true
  end.

(** [a || b]. *)
Definition or_else (a b : value) : value := if truthy a then a else b.

(** [v === 'lit'] for a string literal on the right: no coercion. *)
Definition strict_eq_str (v : value) (lit : string) : bool :=
  match v with
  | JStr s => String.eqb s lit
  | _ => false
  end.

(** *** decodeURIComponent *)

Definition hexval (c : ascii) : option N :=
  let n := N_of_ascii c in
  (if (48 <=? n) && (n <=? 57) then Some (n - 48)
   else if (65 <=? n) && (n <=? 70) then Some (n - 55)
   else if (97 <=? n) && (n <=? 102) then Some (n - 87)
   else None)%N.

Definition byte_string (b : N) : string := String (ascii_of_N b) "".

(** A code point decoded from [n] octets is accepted when it needs that
    many octets, is no surrogate and lies within Unicode. *)
Definition valid_code_point (cp lo : N) : bool :=
  ((lo <=? cp) && (cp <=? 1114111) && negb ((55296 <=? cp) && (cp <=? 57343)))%N.

(** The state of an escape sequence under way: octets still expected, the
    code point so far, its lower bound, the octets read. *)
Definition pending : Type := (nat * N * N * string)%type.

(** ECMAScript's Decode with an empty reserved set; [None] is URIError. *)
Fixpoint uri_decode (s : string) (st : option pending) : option string :=
  match s with
  | EmptyString =>
      match st with
      | None => Some ""
      | Some _ => None
      end
  | String c s1 =>
      if Ascii.eqb c "%" then
        match s1 with
        | String h (String l rest) =>
            match hexval h, hexval l with
            | Some a, Some b =>
                let B := (16 * a + b)%N in
                match st with
                | None =>
                    if B <? 128 then
                      option_map (String (ascii_of_N B)) (uri_decode rest None)
                    else if B <? 192 then None
                    else if B <? 224 then
                      uri_decode rest (Some (1%nat, B mod 32, 128, byte_string B))
                    else if B <? 240 then
                      uri_decode rest (Some (2%nat, B mod 16, 2048, byte_string B))
                    else if B <? 248 then
                      uri_decode rest (Some (3%nat, B mod 8, 65536, byte_string B))
                    else None
                | Some (k, cp, lo, bs) =>
                    if (128 <=? B) && (B <? 192) then
                      let cp' := (cp * 64 + B mod 64)%N in
                      let bs' := bs ++ byte_string B in
                      match k with
                      | O => None
                      | S O =>
                          if valid_code_point cp' lo
                          then option_map (append bs') (uri_decode rest None)
                          else None
                      | S k' => uri_decode rest (Some (k', cp', lo, bs'))
                      end
                    else None
                end
            | _, _ => None
            end
        | _ => None
        end
      else
        match st with
        | None => option_map (String c) (uri_decode s1 None)
        | Some _ => None
        end
  end%N.

Definition decodeURIComponent (s : string) : option string := uri_decode s None.

(** *** Numbers: ToNumber on strings, ToInt32, Number::toString *)

Inductive number : Type :=
| NNaN
| NInf (negative : bool)
| NFin (q : Q).

Definition pow2 (e : Z) : Q :=
  if (0 <=? e)%Z then inject_Z (2 ^ e) else 1 # Z.to_pos (2 ^ (- e)).

Definition pow10 (e : Z) : Q :=
  if (0 <=? e)%Z then inject_Z (10 ^ e) else 1 # Z.to_pos (10 ^ (- e)).

(** The integer nearest to [n / d], the even one of two at equal distance
    ([d] positive, [n] not negative). *)
Definition round_half_even (n d : Z) : Z :=
  let (k, r) := Z.div_eucl n d in
  match (2 * r ?= d)%Z with
  | Lt => k
  | Gt => (k + 1)%Z
  | Eq => if Z.even k then k else (k + 1)%Z
  end.

(** The binary64 value nearest to a positive rational: 53 significant
    bits above 2^-1022, steps of 2^-1074 below, infinity from 2^1024 on. *)
Definition round_positive (q : Q) : number :=
  let n := Qnum q in
  let d := Zpos (Qden q) in
  let e0 := (Z.log2 n - Z.log2 d)%Z in
  let below := if (0 <=? e0)%Z then (n <? d * 2 ^ e0)%Z
               else (n * 2 ^ (- e0) <? d)%Z in
  let e := if below then (e0 - 1)%Z else e0 in
  let s := if (e <? -1022)%Z then 1074%Z else (52 - e)%Z in
  let m := if (0 <=? s)%Z then round_half_even (n * 2 ^ s) d
           else round_half_even n (d * 2 ^ (- s)) in
  let r := Qred (inject_Z m * pow2 (- s)) in
  if Qle_bool (pow2 1024) r then NInf false else NFin r.

Definition round_double (q : Q) : number :=
  match Qnum q with
  | Z0 => NFin 0
  | Zpos _ => round_positive q
  | Zneg _ =>
      match round_positive (Qopp q) with
      | NFin r => NFin (Qopp r)
      | NInf _ => NInf true
      | NNaN => NNaN
      end
  end.

Definition digit_of (base : Z) (c : ascii) : option Z :=
  let n := Z.of_nat (nat_of_ascii c) in
  let v := if (48 <=? n)%Z && (n <=? 57)%Z then Some (n - 48)%Z
           else if (97 <=? n)%Z && (n <=? 122)%Z then Some (n - 87)%Z
           else if (65 <=? n)%Z && (n <=? 90)%Z then Some (n - 55)%Z
           else None in
  match v with
  | Some d => if (d <? base)%Z then Some d else None
  | None => None
  end.

(** The digits at the head of [s]: their value after [acc], how many
    there are, and what follows them. *)
Fixpoint take_digits (base : Z) (s : string) (acc : Z) (count : Z)
    : Z * Z * string :=
  match s with
  | EmptyString => (acc, count, s)
  | String c s' =>
      match digit_of base c with
      | Some d => take_digits base s' (acc * base + d)%Z (count + 1)%Z
      | None => (acc, count, s)
      end
  end.

(** WhiteSpace and LineTerminator, in UTF-8. *)
Definition white_space : list string :=
  let b := fun l => string_of_list_ascii (map ascii_of_nat l) in
  [ b [9]; b [10]; b [11]; b [12]; b [13]; b [32];
    b [194; 160]; b [225; 154; 128];
    b [226; 128; 128]; b [226; 128; 129]; b [226; 128; 130];
    b [226; 128; 131]; b [226; 128; 132]; b [226; 128; 133];
    b [226; 128; 134]; b [226; 128; 135]; b [226; 128; 136];
    b [226; 128; 137]; b [226; 128; 138];
    b [226; 128; 168]; b [226; 128; 169]; b [226; 128; 175];
    b [226; 129; 159]; b [227; 128; 128]; b [239; 187; 191] ]%nat.

Fixpoint strip_prefix (p s : string) : option string :=
  match p with
  | EmptyString => Some s
  | String c p' =>
      match s with
      | String d s' => if Ascii.eqb c d then strip_prefix p' s' else None
      | EmptyString => None
      end
  end.

Fixpoint first_some {A B : Type} (f : A -> option B) (l : list A) : option B :=
  match l with
  | [] => None
  | x :: l' =>
      match f x with
      | Some y => Some y
      | None => first_some f l'
      end
  end.

(** [s] without the white space at its head. *)
Fixpoint skip_space (fuel : nat) (s : string) : string :=
  match fuel with
  | O => s
  | S fuel' =>
      match first_some (fun w => strip_prefix w s) white_space with
      | Some s' => skip_space fuel' s'
      | None => s
      end
  end.

Definition trim_start (s : string) : string := skip_space (String.length s) s.

Definition only_space (s : string) : bool := String.eqb (trim_start s) "".

(** The value [m * 10^e] of a decimal literal, as a binary64 number. *)
Definition decimal_value (m digits e : Z) : number :=
  if (m =? 0)%Z then NFin 0
  else if (400 <? digits + e)%Z then NInf false
  else if (digits + e <? -400)%Z then NFin 0
  else round_double (Qred (inject_Z m * pow10 e)).

Definition negate (x : number) : number :=
  match x with
  | NNaN => NNaN
  | NInf b => NInf (negb b)
  | NFin q => NFin (Qopp q)
  end.

(** ExponentPart, when one is there. *)
Definition exponent_part (s : string) : option (Z * string) :=
  match s with
  | String c s1 =>
      if Ascii.eqb c "e" || Ascii.eqb c "E" then
        let (neg, s2) :=
          match s1 with
          | String "-" s2 => (true, s2)
          | String "+" s2 => (false, s2)
          | _ => (false, s1)
          end in
        match take_digits 10 s2 0 0 with
        | (e, n, rest) =>
            if (n =? 0)%Z then None
            else Some (if neg then (- e)%Z else e, rest)
        end
      else None
  | EmptyString => None
  end.

(** StrUnsignedDecimalLiteral followed by white space only. *)
Definition unsigned_decimal (s : string) : number :=
  match strip_prefix "Infinity" s with
  | Some rest => if only_space rest then NInf false else NNaN
  | None =>
      match take_digits 10 s 0 0 with
      | (i, ni, s1) =>
          let '(m, nf, s2) :=
            match s1 with
            | String "." s1' => take_digits 10 s1' i 0
            | _ => (i, 0%Z, s1)
            end in
          let dot := match s1 with String "." _ => true | _ => false end in
          if (ni + nf =? 0)%Z then NNaN
          else
            let digits := (ni + nf)%Z in
            match exponent_part s2 with
            | Some (e, rest) =>
                if only_space rest then decimal_value m digits (e - nf) else NNaN
            | None =>
                if only_space s2 then decimal_value m digits (- nf) else NNaN
            end
      end
  end.

Definition non_decimal (base : Z) (s : string) : number :=
  match take_digits base s 0 0 with
  | (v, n, rest) =>
      if (n =? 0)%Z then NNaN
      else if only_space rest then round_double (inject_Z v) else NNaN
  end.

(** StringToNumber *)
Definition string_to_number (s : string) : number :=
  let t := trim_start s in
  match t with
  | EmptyString => NFin 0
  | String "0" (String c t') =>
      if Ascii.eqb c "x" || Ascii.eqb c "X" then non_decimal 16 t'
      else if Ascii.eqb c "o" || Ascii.eqb c "O" then non_decimal 8 t'
      else if Ascii.eqb c "b" || Ascii.eqb c "B" then non_decimal 2 t'
      else unsigned_decimal t
  | String "+" t' => unsigned_decimal t'
  | String "-" t' => negate (unsigned_decimal t')
  | _ => unsigned_decimal t
  end.

(** ToInt32 *)
Definition to_int32 (x : number) : Z :=
  match x with
  | NFin q =>
      let k := Z.quot (Qnum q) (Zpos (Qden q)) in
      ((k + 2 ^ 31) mod 2 ^ 32 - 2 ^ 31)%Z
  | _ => 0%Z
  end.


(** *** Number::toString *)

Definition digit_char (d : Z) : ascii := ascii_of_nat (48 + Z.to_nat d).

(** The decimal digits of [z], at least [width] of them. *)
Fixpoint digits_of (fuel : nat) (z width : Z) (acc : string) : string :=
  match fuel with
  | O => acc
  | S fuel' =>
      if (z =? 0)%Z && (width <=? 0)%Z then acc
      else digits_of fuel' (z / 10)%Z (width - 1)%Z
             (String (digit_char (z mod 10)) acc)
  end.

Definition decimal (z : Z) : string :=
  if (z =? 0)%Z then "0"
  else if (z <? 0)%Z then "-" ++ digits_of 400 (- z) 0 ""
  else digits_of 400 z 0 "".

Fixpoint zeros (n : nat) : string :=
  match n with
  | O => ""
  | S n' => String "0" (zeros n')
  end.

(** The [n] with 10^(n-1) <= v < 10^n, for a positive [v]. *)
Fixpoint magnitude_up (fuel : nat) (v : Q) (n : Z) : Z :=
  match fuel with
  | O => n
  | S fuel' =>
      if Qle_bool (pow10 n) v then magnitude_up fuel' v (n + 1)%Z else n
  end.

Fixpoint magnitude_down (fuel : nat) (v : Q) (n : Z) : Z :=
  match fuel with
  | O => n
  | S fuel' =>
      if Qle_bool (pow10 (n - 1)) v then n else magnitude_down fuel' v (n - 1)%Z
  end.

Definition magnitude (v : Q) : Z :=
  if Qle_bool 1 v then magnitude_up 400 v 1 else magnitude_down 400 v 0.

Definition same_double (x : number) (v : Q) : bool :=
  match x with
  | NFin r => Qeq_bool r v
  | _ => false
  end.

(** The shortest digits [s], [k] of them, and the [n] with [s * 10^(n-k)]
    read back as [v]; of two candidates the nearer to [v]. *)
Fixpoint shortest (fuel : nat) (v : Q) (n k : Z) : Z * Z * Z :=
  match fuel with
  | O => (0%Z, k, n)
  | S fuel' =>
      let scaled := Qmult v (pow10 (k - n)) in
      let lo := (Qnum scaled / Zpos (Qden scaled))%Z in
      let hi := (lo + 1)%Z in
      let back s := same_double (round_double (Qred (inject_Z s * pow10 (n - k)))) v in
      let ok_lo := back lo && (10 ^ (k - 1) <=? lo)%Z in
      let ok_hi := back hi in
      let near_lo := Qle_bool (Qminus scaled (inject_Z lo))
                              (Qminus (inject_Z hi) scaled) in
      let up := if (hi =? 10 ^ k)%Z then (10 ^ (k - 1), k, n + 1)%Z
                else (hi, k, n) in
      if ok_lo && ok_hi then (if near_lo then (lo, k, n) else up)
      else if ok_lo then (lo, k, n)
      else if ok_hi then up
      else shortest fuel' v n (k + 1)%Z
  end.

Definition substring_from (i : nat) (s : string) : string :=
  String.substring i (String.length s - i) s.

Definition positive_to_string (v : Q) : string :=
  let '(s, k, n) := shortest 17 v (magnitude v) 1 in
  let ds := digits_of 400 s k "" in
  if (k <=? n)%Z && (n <=? 21)%Z then ds ++ zeros (Z.to_nat (n - k))
  else if (0 <? n)%Z && (n <=? 21)%Z then
    String.substring 0 (Z.to_nat n) ds ++ "." ++ substring_from (Z.to_nat n) ds
  else if (-6 <? n)%Z && (n <=? 0)%Z then
    "0." ++ zeros (Z.to_nat (- n)) ++ ds
  else
    let e := (n - 1)%Z in
    let sign := if (0 <=? e)%Z then "+" else "-" in
    let mant := if (k =? 1)%Z then ds
                else String.substring 0 1 ds ++ "." ++ substring_from 1 ds in
    mant ++ "e" ++ sign ++ decimal (Z.abs e).

Definition number_to_string (x : number) : string :=
  match x with
  | NNaN => "NaN"
  | NInf false => "Infinity"
  | NInf true => "-Infinity"
  | NFin q =>
      match Qnum q with
      | Z0 => "0"
      | Zpos _ => positive_to_string q
      | Zneg _ => "-" ++ positive_to_string (Qopp q)
      end
  end.


(** *** ToNumber and the text of a value *)

(** ToNumber.  An object of the model has no [valueOf] or [toString] of
    its own, so that it is read as NaN; a Date is read as its time. *)
Definition to_number (v : value) : number :=
  match v with
  | JUndefined | JNaN | JObj _ => NNaN
  | JNull => NFin 0
  | JBool b => NFin (if b then 1 else 0)
  | JNum q => NFin q
  | JStr s => string_to_number s
  | JDate ms => NFin (inject_Z ms)
  end.

(** How [util.format] writes a value under [%s].  The text [util.inspect]
    gives for an object or a Date depends on the version of Node and is
    not modelled: they are written [[Object]] and [[Date]]. *)
Definition display (v : value) : string :=
  match v with
  | JUndefined => "undefined"
  | JNull => "null"
  | JBool b => if b then "true" else "false"
  | JNum q => number_to_string (NFin q)
  | JNaN => "NaN"
  | JStr s => s
  | JDate _ => "[Date]"
  | JObj _ => "[Object]"
  end.

End JS.

(* ------------------------------------------------------------------ *)
(** ** The Express runtime the application is written against *)

Module Express.
Import JS.

(** *** Requests, the process environment, the response object *)

Record Request : Type := { method : string; path : string }.

(** What the handlers read from the process: the clock behind [new Date()]
    and the value of [process.uptime()], in seconds. *)
Record Env : Type := { now : Z; uptime : Q }.

Inductive Body : Type :=
| Json (v : value)                   (* res.json(v) *)
| Text (s : string).                 (* res.send(s) *)

Record Response : Type := { status : value; body : Body }.

(** The response object: [res.statusCode], and the responses sent. *)
Record Res : Type := { statusCode : value; out : list Response }.

Definition res0 : Res := {| statusCode := JNum 200; out := [] |}.

(** A fault is the object that was thrown, or passed to [next]. *)
Definition Fault : Type := object.

(** How a middleware function leaves: it returns, it calls [next()] or
    [next(err)], or it throws. *)
Inductive Control : Type :=
| Returned
| CalledNext (err : option Fault)
| Threw (e : Fault).

Definition res_status (code : value) (res : Res) : Res :=
  {| statusCode := code; out := out res |}.

(** Node writes a response under a status code whose integer value lies
    between 100 and 999. *)
Definition valid_status_code (v : value) : bool :=
  let n := to_int32 (to_number v) in
  ((100 <=? n) && (n <=? 999))%Z.

(** The faults of Node that [res.json] and [res.send] raise. *)
Definition headers_sent : Fault :=
  [ ("code", JStr "ERR_HTTP_HEADERS_SENT");
    ("name", JStr "Error");
    ("message", JStr "Cannot set headers after they are sent to the client") ].

Definition invalid_status_code (v : value) : Fault :=
  [ ("code", JStr "ERR_HTTP_INVALID_STATUS_CODE");
    ("name", JStr "RangeError");
    ("message", JStr ("Invalid status code: " ++ display v)) ].

(** Sending a body.  Once a response was sent, setting the content type
    raises; a status code that is not valid raises when the head of the
    response is written.  Nothing is sent in either case. *)
Definition res_end (b : Body) (res : Res) : Res * Control :=
  match out res with
  | _ :: _ => (res, Threw headers_sent)
  | [] =>
      if valid_status_code (statusCode res) then
        ({| statusCode := statusCode res;
            out := [ {| status := statusCode res; body := b |} ] |},
         Returned)
      else (res, Threw (invalid_status_code (statusCode res)))
  end.

Definition res_json (v : value) : Res -> Res * Control := res_end (Json v).
Definition res_send (s : string) : Res -> Res * Control := res_end (Text s).

Definition Params : Type := list (string * string).

(** [req.params.name] *)
Definition param (ps : Params) (name : string) : value :=
  match lookup name ps with
  | Some s => JStr s
  | None => JUndefined
  end.

Definition Handler : Type := Env -> Request -> Params -> Res -> Res * Control.
Definition Middleware : Type := Env -> Request -> Res -> Res * Control.
Definition ErrorMiddleware : Type := Fault -> Env -> Request -> Res -> Res * Control.

(** *** Path patterns (path-to-regexp, as Express 4 calls it for a route:
    not case sensitive, not strict, anchored at the end) *)

Inductive Tok : Type :=
| Lit (c : ascii)
| Param (name : string).

Definition is_word (c : ascii) : bool :=
  let n := nat_of_ascii c in
  (((48 <=? n) && (n <=? 57)) || ((65 <=? n) && (n <=? 90))
   || ((97 <=? n) && (n <=? 122)) || (n =? 95))%nat.

Definition close_param (name : string) : list Tok :=
  if String.eqb name "" then [Lit ":"%char] else [Param name].

(** [:name] becomes a capture, every other character stands for itself. *)
Fixpoint tokens (s : string) (cur : option string) : list Tok :=
  match s with
  | EmptyString =>
      match cur with
      | Some name => close_param name
      | None => []
      end
  | String c s' =>
      let here :=
        if Ascii.eqb c ":" then tokens s' (Some "")
        else Lit c :: tokens s' None in
      match cur with
      | Some name =>
          if is_word c then tokens s' (Some (name ++ String c ""))
          else close_param name ++ here
      | None => here
      end
  end.

Fixpoint drop_last_slash (s : string) : string :=
  match s with
  | EmptyString => ""
  | String c s' =>
      if Ascii.eqb c "/" && String.eqb s' "" then ""
      else String c (drop_last_slash s')
  end.

(** The pattern [p] compiles to [^p\/?$], where a final slash of [p]
    itself is the optional one. *)
Definition compile (p : string) : list Tok := tokens (drop_last_slash p) None.

Definition upper (c : ascii) : ascii :=
  let n := nat_of_ascii c in
  if ((97 <=? n) && (n <=? 122))%nat then ascii_of_nat (n - 32) else c.

(** Comparison under the [i] flag, for the ASCII characters of a pattern. *)
Definition ci_eqb (a b : ascii) : bool := Ascii.eqb (upper a) (upper b).

(** A capture is [([^\/]+?)]: not empty, without slash, as short as the
    rest of the pattern, [k], allows. *)
Fixpoint capture (k : string -> option Params) (name acc s : string)
    : option Params :=
  match s with
  | EmptyString => None
  | String d s' =>
      if Ascii.eqb d "/" then None
      else
        let acc' := acc ++ String d "" in
        match k s' with
        | Some ps => Some ((name, acc') :: ps)
        | None => capture k name acc' s'
        end
  end.

Fixpoint match_toks (ts : list Tok) (s : string) {struct ts} : option Params :=
  match ts with
  | [] => if String.eqb s "" || String.eqb s "/" then Some [] else None
  | Lit c :: ts' =>
      match s with
      | String d s' => if ci_eqb c d then match_toks ts' s' else None
      | EmptyString => None
      end
  | Param name :: ts' => capture (match_toks ts') name "" s
  end.

Inductive Match : Type :=
| NoMatch
| Matched (ps : Params)
| MatchError (e : Fault).

(** [decode_param]: a capture that does not decode raises the URIError
    with this message and status 400. *)
Definition decode_error (val : string) : Fault :=
  [ ("message", JStr ("Failed to decode param '" ++ val ++ "'"));
    ("status", JNum 400);
    ("statusCode", JNum 400) ].

Fixpoint decode_params (ps : Params) : Fault + Params :=
  match ps with
  | [] => inr []
  | (k, val) :: ps' =>
      match decodeURIComponent val with
      | None => inl (decode_error val)
      | Some v =>
          match decode_params ps' with
          | inl e => inl e
          | inr qs => inr ((k, v) :: qs)
          end
      end
  end.

(** [Layer.prototype.match] under the router's [matchLayer]. *)
Definition match_path (pattern p : string) : Match :=
  match match_toks (compile pattern) p with
  | None => NoMatch
  | Some raw =>
      match decode_params raw with
      | inl e => MatchError e
      | inr ps => Matched ps
      end
  end.

(** *** The router: [router.get], and the scan of [router.handle] *)

Record Route : Type :=
  { r_method : string;               (* as [Route] stores it: lower case *)
    r_path : string;
    r_handler : Handler }.

Definition Router : Type := list Route.

Definition router_get (p : string) (h : Handler) : Route :=
  {| r_method := "get"; r_path := p; r_handler := h |}.

Definition lower (c : ascii) : ascii :=
  let n := nat_of_ascii c in
  if ((65 <=? n) && (n <=? 90))%nat then ascii_of_nat (n + 32) else c.

Fixpoint map_string (f : ascii -> ascii) (s : string) : string :=
  match s with
  | EmptyString => ""
  | String c s' => String (f c) (map_string f s')
  end.

Definition toLowerCase : string -> string := map_string lower.
Definition toUpperCase : string -> string := map_string upper.

(** The method a route is asked for: HEAD falls back on the GET handler of
    a route that has no HEAD handler of its own. *)
Definition effective_method (r : Route) (m : string) : string :=
  let name := toLowerCase m in
  if String.eqb name "head" && negb (String.eqb (r_method r) "head")
  then "get" else name.

(** The names a plain object such as [route.methods] inherits, among
    those a lower-cased method can be equal to. *)
Definition inherited (name : string) : bool :=
  String.eqb name "constructor" || String.eqb name "__proto__".

(** [Route.prototype._handles_method]: [Boolean(this.methods[name])] *)
Definition handles_method (r : Route) (m : string) : bool :=
  String.eqb (effective_method r m) (r_method r)
  || inherited (effective_method r m).

(** [Route.prototype._options] *)
Definition route_options (r : Route) : list string :=
  if String.eqb (r_method r) "get" then ["GET"; "HEAD"]
  else [toUpperCase (r_method r)].

Definition mem (x : string) (l : list string) : bool :=
  existsb (String.eqb x) l.

Fixpoint appendMethods (l addition : list string) : list string :=
  match addition with
  | [] => l
  | m :: addition' =>
      appendMethods (if mem m l then l else l ++ [m]) addition'
  end.

(** [Route.prototype.dispatch] for the one handler of the route. *)
Definition route_dispatch (r : Route) (env : Env) (req : Request)
    (ps : Params) (res : Res) : Res * Control :=
  if String.eqb (r_method r) (effective_method r (method req))
  then r_handler r env req ps res
  else (res, CalledNext None).

(** How the router leaves: a handler took the request, or the router
    calls the [next] of the application, with or without a fault. *)
Inductive RouterEnd : Type :=
| RStopped
| RDone (err : option Fault).

(** The router answers an OPTIONS request that nothing else answered
    with the methods of the routes on that path ([sendOptionsResponse]). *)
Definition router_done (req : Request) (res : Res) (err : option Fault)
    (options : list string) : Res * RouterEnd :=
  if String.eqb (method req) "OPTIONS" then
    match err, options with
    | None, _ :: _ =>
        match res_send (String.concat "," options) res with
        | (res', Threw e) => (res', RDone (Some e))
        | (res', _) => (res', RStopped)
        end
    | _, _ => (res, RDone err)
    end
  else (res, RDone err).

(** [layerError = layerError || match] *)
Definition hold_error (layerError : option Fault) (m : Match) : option Fault :=
  match layerError, m with
  | Some e, _ => Some e
  | None, MatchError e => Some e
  | None, _ => None
  end.

(** The loop of [next] in [router.handle]: routes are tried in the order
    of their registration; a route is not entered while a fault is held. *)
Fixpoint router_next (stack : list Route) (env : Env) (req : Request)
    (res : Res) (layerError : option Fault) (options : list string)
    : Res * RouterEnd :=
  match stack with
  | [] => router_done req res layerError options
  | route :: stack' =>
      let m := match_path (r_path route) (path req) in
      let held := hold_error layerError m in
      match m, held with
      | Matched ps, None =>
          let has_method := handles_method route (method req) in
          let options' :=
            if negb has_method && String.eqb (method req) "OPTIONS"
            then appendMethods options (route_options route)
            else options in
          if negb has_method && negb (String.eqb (method req) "HEAD")
          then router_next stack' env req res None options'
          else
            match route_dispatch route env req ps res with
            | (res', Returned) => (res', RStopped)
            | (res', CalledNext err) => router_next stack' env req res' err options'
            | (res', Threw e) => router_next stack' env req res' (Some e) options'
            end
      | _, _ => router_next stack' env req res held options
      end
  end.

Definition router_handle (r : Router) (env : Env) (req : Request) (res : Res)
    : Res * RouterEnd :=
  router_next r env req res None [].

(** *** The application: [app.use], and the scan of the stack *)

Inductive Layer : Type :=
| Use (fn : Middleware)              (* a function of (req, res, next) *)
| UseError (fn : ErrorMiddleware)    (* a function of (err, req, res, next) *)
| Mount (r : Router).                (* app.use("/", router) *)

(** How the application leaves: a layer took the request, or the stack is
    exhausted and the request, with the fault it may carry, is left to
    the default handler of the framework. *)
Inductive End : Type :=
| Stopped
| Final (err : option Fault).

(** With a fault under way only error middleware runs ([handle_error]);
    without one, error middleware is passed over ([handle_request]). *)
Fixpoint app_next (stack : list Layer) (env : Env) (req : Request)
    (res : Res) (err : option Fault) : Res * End :=
  match stack with
  | [] => (res, Final err)
  | layer :: stack' =>
      let continue (rc : Res * Control) :=
        match rc with
        | (res', Returned) => (res', Stopped)
        | (res', CalledNext err') => app_next stack' env req res' err'
        | (res', Threw e) => app_next stack' env req res' (Some e)
        end in
      match err, layer with
      | None, Use fn => continue (fn env req res)
      | None, Mount r =>
          match router_handle r env req res with
          | (res', RStopped) => (res', Stopped)
          | (res', RDone err') => app_next stack' env req res' err'
          end
      | Some e, UseError fn => continue (fn e env req res)
      | _, _ => app_next stack' env req res err
      end
  end.

Definition handle (app : list Layer) (env : Env) (req : Request) : Res * End :=
  app_next app env req res0 None.

(** The built-in middleware of [app.js], for a request without body and a
    static directory without files: each calls [next()]. *)
Definition pass : Middleware := fun _ _ res => (res, CalledNext None).
Definition json : Middleware := pass.
Definition urlencoded : Middleware := pass.
Definition static (root : string) : Middleware := pass.

End Express.
Import JS Express.

(* ------------------------------------------------------------------ *)
(** ** src/routes/index.js *)

Definition home : Handler := fun env req ps res =>
  res_json (JObj [("message", JStr "Welcome to our API!")]) res.

Definition health : Handler := fun env req ps res =>
  res_json (JObj [ ("status", JStr "ok");
                   ("timestamp", JDate (now env));
                   ("uptime", JNum (uptime env)) ]) res.

Definition user : Handler := fun env req ps res =>
  let userId := param ps "id" in
  if strict_eq_str userId "123" then
    res_json (JObj [ ("id", JStr "123");
                     ("name", JStr "John Doe");
                     ("email", JStr "john@example.com") ]) res
  else
    res_json (JObj [("error", JObj [("message", JStr "User not found")])])
      (res_status (JNum 404) res).

Definition routes : Router :=
  [ router_get "/" home;
    router_get "/api/health" health;
    router_get "/api/users/:id" user ].

(** ** src/app.js *)

Definition error_handler : ErrorMiddleware := fun err env req res =>
  let res1 := res_status (or_else (prop err "status") (JNum 500)) res in
  res_json (JObj [("error", JObj [("message", prop err "message")])]) res1.

Definition not_found : Middleware := fun env req res =>
  res_json (JObj [("error", JObj [("message", JStr "Not Found")])])
    (res_status (JNum 404) res).

(** The stack of [app.js] around a router. *)
Definition app_of (r : Router) : list Layer :=
  [ Use json;
    Use urlencoded;
    Use (static "public");
    Mount r;
    UseError error_handler;
    Use not_found ].

Definition app : list Layer := app_of routes.

(** The same stack with the three layers of the framework left open: [j],
    [u] and [s] stand for what [express.json()], [express.urlencoded()]
    and [express.static()] do with the request at hand, body and headers
    included. *)
Definition app_with (j u s : Middleware) (r : Router) : list Layer :=
  [ Use j;
    Use u;
    Use s;
    Mount r;
    UseError error_handler;
    Use not_found ].

(** The middleware hands the request on: it calls [next()]. *)
Definition hands_on (fn : Middleware) (env : Env) (req : Request) : Prop :=
  forall res, fn env req res = (res, CalledNext None).

(** The middleware rejects the request: it calls [next(e)]. *)
Definition rejects (fn : Middleware) (env : Env) (req : Request) (e : Fault)
    : Prop :=
  forall res, fn env req res = (res, CalledNext (Some e)).

Definition dispatch (env : Env) (req : Request) : Res * End := handle app env req.

(** The responses the three routes and the two last layers produce. *)
Definition home_response : Response :=
  {| status := JNum 200;
     body := Json (JObj [("message", JStr "Welcome to our API!")]) |}.

Definition health_response (env : Env) : Response :=
  {| status := JNum 200;
     body := Json (JObj [ ("status", JStr "ok");
                          ("timestamp", JDate (now env));
                          ("uptime", JNum (uptime env)) ]) |}.

Definition user_response : Response :=
  {| status := JNum 200;
     body := Json (JObj [ ("id", JStr "123");
                          ("name", JStr "John Doe");
                          ("email", JStr "john@example.com") ]) |}.

Definition error_body (message : value) : Body :=
  Json (JObj [("error", JObj [("message", message)])]).

Definition user_not_found_response : Response :=
  {| status := JNum 404; body := error_body (JStr "User not found") |}.

Definition not_found_response : Response :=
  {| status := JNum 404; body := error_body (JStr "Not Found") |}.

Definition fault_response (e : Fault) : Response :=
  {| status := or_else (prop e "status") (JNum 500);
     body := error_body (prop e "message") |}.

(** The status the error handler selects: [err.status || 500]. *)
Definition selected (e : Fault) : value := or_else (prop e "status") (JNum 500).

Definition options_response : Response :=
  {| status := JNum 200; body := Text "GET,HEAD" |}.

(** A run answers with [r]: one response was sent, [r], by a layer of the
    stack, which ended the run there. *)
Definition answers (x : Res * End) (r : Response) : Prop :=
  out (fst x) = [r] /\ snd x = Stopped.

Definition GET (p : string) : Request := {| method := "GET"; path := p |}.
Definition env0 : Env := {| now := 0; uptime := 0 |}.

(* ------------------------------------------------------------------ *)
(** ** What is observed of a run *)

(** A pattern without parameter. *)
Definition all_lit (ts : list Tok) : bool :=
  forallb (fun t => match t with Lit _ => true | Param _ => false end) ts.

(** The methods a route registered with [router.get] handles. *)
Definition get_or_head (m : string) : bool :=
  String.eqb (toLowerCase m) "get" || String.eqb (toLowerCase m) "head".

Definition is_matched (m : Match) : bool :=
  match m with
  | Matched _ => true
  | _ => false
  end.

Definition is_match_error (m : Match) : bool :=
  match m with
  | MatchError _ => true
  | _ => false
  end.

(** The route takes the request: its method and its path both match. *)
Definition route_takes (req : Request) (r : Route) : bool :=
  handles_method r (method req) && is_matched (match_path (r_path r) (path req)).

(** Some route of the table takes the request. *)
Definition routed (req : Request) : bool := existsb (route_takes req) routes.

(** The path fits the pattern of some route, whatever the method. *)
Definition on_route_path (req : Request) : bool :=
  existsb (fun r => negb (match match_path (r_path r) (path req) with
                          | NoMatch => true
                          | _ => false
                          end)) routes.

(** The path fits a pattern, with a parameter that does not decode. *)
Definition undecodable (req : Request) : bool :=
  existsb (fun r => is_match_error (match_path (r_path r) (path req))) routes.

Definition is_2xx (v : value) : bool :=
  match v with
  | JNum q => Qle_bool 200 q && negb (Qle_bool 300 q)
  | _ => false
  end.

(** The two envelopes: a JSON object under a 2xx status, or
    [{error: {message: <string>}}] under another status. *)
Definition success_shape (r : Response) : Prop :=
  is_2xx (status r) = true /\ exists props, body r = Json (JObj props).

Definition error_shape (r : Response) : Prop :=
  is_2xx (status r) = false /\ exists m, body r = error_body (JStr m).










(** A router whose only route raises [e], and sample faults. *)
Definition raising (e : Fault) : Handler := fun env req ps res => (res, Threw e).
Definition faulty (e : Fault) : Router := [ router_get "/" (raising e) ].


Definition OPTIONS (p : string) : Request := {| method := "OPTIONS"; path := p |}.
Definition POST (p : string) : Request := {| method := "POST"; path := p |}.



(** A body parser that rejects the body: it calls [next(e)]. *)
Definition rejecting (e : Fault) : Middleware := fun env req res =>
  (res, CalledNext (Some e)).

(** A fault as [express.json()] makes it for a body that is no JSON text:
    the message of [JSON.parse] (here, for a text that ends too early)
    and the status 400. *)
Definition bad_json : Fault :=
  [ ("message", JStr "Unexpected end of JSON input");
    ("status", JNum 400);
    ("statusCode", JNum 400);
    ("type", JStr "entity.parse.failed") ].


(* ------------------------------------------------------------------ *)
(** ** Further observations: paths, layers, JSON texts *)





(** [JSON.parse(JSON.stringify(v))]: a member whose value is [undefined] is
    left out, NaN becomes [null], a Date becomes the string [iso] gives. *)
Fixpoint json_round_trip (iso : Z -> string) (v : value) : value :=
  match v with
  | JNaN => JNull
  | JDate ms => JStr (iso ms)
  | JObj props =>
      JObj ((fix members (l : list (string * value)) : list (string * value) :=
               match l with
               | [] => []
               | (k, x) :: l' =>
                   match x with
                   | JUndefined => members l'
                   | _ => (k, json_round_trip iso x) :: members l'
                   end
               end) props)
  | _ => v
  end.

(* ------------------------------------------------------------------ *)
(** ** Path matching on the three routes *)

Arguments ci_eqb : simpl never.
Arguments match_path : simpl never.

Lemma match_toks_lits (ts : list Tok) :
  all_lit ts = true -> forall s ps, match_toks ts s = Some ps -> ps = [].
Proof.
  induction ts as [|[c|n] ts IH]; cbn; intros Hl s ps H.
  - destruct (_ || _); congruence.
  - destruct s as [|d s]; [discriminate|].
    destruct (ci_eqb c d); [eauto | discriminate].
  - discriminate.
Qed.

Lemma match_path_lits (pat p : string) :
  all_lit (compile pat) = true ->
  match_path pat p = NoMatch \/ match_path pat p = Matched [].
Proof.
  intros Hl. unfold match_path.
  destruct (match_toks (compile pat) p) as [ps|] eqn:E; [right | now left].
  now rewrite (match_toks_lits _ Hl _ _ E).
Qed.

Lemma capture_end (n : string) (s acc : string) (ps : Params) :
  capture (match_toks []) n acc s = Some ps -> exists v, ps = [(n, v)].
Proof.
  revert acc ps. induction s as [|d s IH]; cbn; intros acc ps H; [discriminate|].
  destruct (Ascii.eqb d "/"); [discriminate|].
  destruct (String.eqb s "" || String.eqb s "/").
  - injection H as <-. eauto.
  - eauto.
Qed.

Lemma match_toks_one_param (lits : list Tok) (n : string) :
  all_lit lits = true ->
  forall s ps,
    match_toks (lits ++ [Param n])%list s = Some ps -> exists v, ps = [(n, v)].
Proof.
  induction lits as [|[c|m] lits IH]; cbn; intros Hl s ps H.
  - eapply capture_end; eassumption.
  - destruct s as [|d s]; [discriminate|].
    destruct (ci_eqb c d); [eauto | discriminate].
  - discriminate.
Qed.

Lemma match_path_home (p : string) :
  match_path "/" p = NoMatch \/
  (match_path "/" p = Matched [] /\ (p = "" \/ p = "/")).
Proof.
  unfold match_path. cbn.
  destruct (String.eqb p "") eqn:E1; cbn.
  - right. apply String.eqb_eq in E1. auto.
  - destruct (String.eqb p "/") eqn:E2; cbn; [right | now left].
    apply String.eqb_eq in E2. auto.
Qed.

Lemma match_path_health (p : string) :
  match_path "/api/health" p = NoMatch \/ match_path "/api/health" p = Matched [].
Proof. apply match_path_lits. reflexivity. Qed.

Lemma match_path_users (p : string) :
  match_path "/api/users/:id" p = NoMatch \/
  (exists v, match_path "/api/users/:id" p = Matched [("id", v)]) \/
  (exists val, match_path "/api/users/:id" p = MatchError (decode_error val)).
Proof.
  unfold match_path.
  destruct (match_toks (compile "/api/users/:id") p) as [raw|] eqn:E; [|now left].
  right.
  change (compile "/api/users/:id")
    with ([Lit "/"; Lit "a"; Lit "p"; Lit "i"; Lit "/"; Lit "u"; Lit "s";
           Lit "e"; Lit "r"; Lit "s"; Lit "/"]%char ++ [Param "id"])%list in E.
  apply match_toks_one_param in E; [|reflexivity].
  destruct E as [val ->]. cbn.
  destruct (decodeURIComponent val) as [v|]; eauto.
Qed.

Lemma ci_eqb_same (a b c : ascii) :
  ci_eqb a c = true -> ci_eqb b c = true -> upper a = upper b.
Proof.
  unfold ci_eqb. intros Ha Hb.
  apply Ascii.eqb_eq in Ha, Hb. congruence.
Qed.

Ltac eat p :=
  destruct p as [|? p]; cbn in *; try congruence;
  match goal with
  | H : context [ci_eqb ?a ?c] |- _ =>
      let E := fresh "E" in
      destruct (ci_eqb a c) eqn:E; try congruence
  end.

(** A path on the users route is neither [/] nor the health path. *)
Lemma users_excludes (p : string) :
  match_path "/api/users/:id" p <> NoMatch ->
  match_path "/" p = NoMatch /\ match_path "/api/health" p = NoMatch.
Proof.
  intros H.
  assert (Hu : match_toks (compile "/api/users/:id") p <> None).
  { intros E. apply H. unfold match_path. now rewrite E. }
  clear H. split.
  - destruct (match_path_home p) as [E|[_ [->| ->]]]; [exact E| |];
      exfalso; apply Hu; reflexivity.
  - unfold match_path.
    assert (E : match_toks (compile "/api/health") p = None);
      [|now rewrite E].
    cbn in Hu. cbn.
    do 5 eat p.
    destruct p as [|c p]; cbn in *; try congruence.
    destruct (ci_eqb "u" c) eqn:E5; try congruence.
    destruct (ci_eqb "h" c) eqn:E6; try congruence.
    pose proof (ci_eqb_same _ _ _ E5 E6) as F. discriminate F.
Qed.

(** ** Methods on a GET route *)

Arguments handles_method : simpl never.
Arguments route_dispatch : simpl never.
Arguments get_or_head : simpl never.
Arguments valid_status_code : simpl never.

Lemma valid_200 : valid_status_code (JNum 200) = true.
Proof. reflexivity. Qed.

Lemma valid_400 : valid_status_code (JNum 400) = true.
Proof. reflexivity. Qed.

Lemma valid_404 : valid_status_code (JNum 404) = true.
Proof. reflexivity. Qed.


Lemma handles_get (p : string) (h : Handler) (m : string) :
  handles_method (router_get p h) m
  = get_or_head m || inherited (toLowerCase m).
Proof.
  unfold handles_method, effective_method, get_or_head. cbn.
  destruct (String.eqb (toLowerCase m) "head") eqn:E; cbn.
  - apply String.eqb_eq in E. rewrite E. reflexivity.
  - now rewrite orb_false_r.
Qed.

Lemma route_dispatch_get (p : string) (h : Handler) env req ps res :
  route_dispatch (router_get p h) env req ps res =
  if get_or_head (method req) then h env req ps res else (res, CalledNext None).
Proof.
  unfold route_dispatch, effective_method, get_or_head. cbn.
  destruct (String.eqb (toLowerCase (method req)) "head") eqn:E; cbn.
  - now rewrite orb_true_r.
  - now rewrite orb_false_r, String.eqb_sym.
Qed.

Lemma inherited_not_options (m : string) :
  inherited (toLowerCase m) = true -> String.eqb m "OPTIONS" = false.
Proof.
  intros H. destruct (String.eqb m "OPTIONS") eqn:E; [|reflexivity].
  apply String.eqb_eq in E. subst m. discriminate H.
Qed.

Arguments router_next : simpl never.

Lemma router_next_nil env req res layerError options :
  router_next [] env req res layerError options =
  router_done req res layerError options.
Proof. reflexivity. Qed.

Lemma router_next_cons route stack env req res layerError options :
  router_next (route :: stack) env req res layerError options =
  let m := match_path (r_path route) (path req) in
  let held := hold_error layerError m in
  match m, held with
  | Matched ps, None =>
      let has_method := handles_method route (method req) in
      let options' :=
        if negb has_method && String.eqb (method req) "OPTIONS"
        then appendMethods options (route_options route)
        else options in
      if negb has_method && negb (String.eqb (method req) "HEAD")
      then router_next stack env req res None options'
      else
        match route_dispatch route env req ps res with
        | (res', Returned) => (res', RStopped)
        | (res', CalledNext err) => router_next stack env req res' err options'
        | (res', Threw e) => router_next stack env req res' (Some e) options'
        end
  | _, _ => router_next stack env req res held options
  end.
Proof. reflexivity. Qed.

(** The step of the scan at a route registered with [router.get]: its
    handler runs for GET and HEAD; every other method passes the route,
    and leaves its methods behind when it is OPTIONS. *)
Lemma router_next_get p h stack env req res layerError options :
  router_next (router_get p h :: stack) env req res layerError options =
  let m := match_path p (path req) in
  let held := hold_error layerError m in
  match m, held with
  | Matched ps, None =>
      if get_or_head (method req) then
        match h env req ps res with
        | (res', Returned) => (res', RStopped)
        | (res', CalledNext err) => router_next stack env req res' err options
        | (res', Threw e) => router_next stack env req res' (Some e) options
        end
      else
        router_next stack env req res None
          (if String.eqb (method req) "OPTIONS"
           then appendMethods options ["GET"; "HEAD"]
           else options)
  | _, _ => router_next stack env req res held options
  end.
Proof.
  rewrite router_next_cons. cbn [r_path router_get].
  destruct (match_path p (path req)) as [|ps|e]; try reflexivity.
  cbn zeta. destruct (hold_error layerError (Matched ps)); [reflexivity|].
  rewrite handles_get, route_dispatch_get.
  change (route_options (router_get p h)) with ["GET"; "HEAD"].
  destruct (get_or_head (method req)) eqn:Eg; cbn.
  - reflexivity.
  - destruct (inherited (toLowerCase (method req))) eqn:Ei; cbn.
    + now rewrite (inherited_not_options _ Ei).
    + destruct (String.eqb (method req) "OPTIONS") eqn:Eo; cbn.
      * apply String.eqb_eq in Eo. rewrite Eo. reflexivity.
      * destruct (String.eqb (method req) "HEAD") eqn:Eh; cbn; [|reflexivity].
        apply String.eqb_eq in Eh. rewrite Eh in Eg. discriminate Eg.
Qed.

Ltac split_method m :=
  let Eo := fresh "Eo" in
  let Eh := fresh "Eh" in
  let Eg := fresh "Eg" in
  destruct (String.eqb m "OPTIONS") eqn:Eo;
  [ apply String.eqb_eq in Eo; subst m;
    assert (Eg : get_or_head "OPTIONS" = false) by reflexivity
  | destruct (String.eqb m "HEAD") eqn:Eh;
    [ apply String.eqb_eq in Eh; subst m;
      assert (Eg : get_or_head "HEAD" = true) by reflexivity
    | destruct (get_or_head m) eqn:Eg ] ].

Ltac split_paths p :=
  let H1 := fresh "Hhome" in
  let H2 := fresh "Hhealth" in
  let H3 := fresh "Husers" in
  destruct (match_path_home p) as [H1|[H1 _]];
  destruct (match_path_health p) as [H2|H2];
  destruct (match_path_users p) as [H3|[[? H3]|[? H3]]].

Ltac use_facts :=
  repeat match goal with
  | H : match_path ?a ?b = _ |- context [match_path ?a ?b] => rewrite H
  | H : get_or_head ?m = _ |- context [get_or_head ?m] => rewrite H
  | H : String.eqb ?m ?k = _ |- context [String.eqb ?m ?k] => rewrite H
  end.

Ltac settle :=
  unfold home, health, user, error_handler, not_found,
    res_json, res_send, res_end;
  cbn -[router_next];
  rewrite ?valid_200, ?valid_400, ?valid_404;
  cbn -[router_next].

Ltac route_step :=
  rewrite router_next_get; cbn [path method];
  use_facts; cbn -[router_next]; settle.

Ltac split_id :=
  try match goal with
  | |- context [String.eqb ?x "123"] =>
      let E := fresh "Eid" in destruct (String.eqb x "123") eqn:E
  end.

Ltac open_dispatch :=
  unfold dispatch, handle, app, app_of, routes;
  cbn -[router_next]; unfold router_handle;
  repeat route_step;
  split_id; settle;
  rewrite ?router_next_nil;
  unfold router_done; cbn [method]; use_facts; settle; cbn.

Ltac pick :=
  solve [ reflexivity | eexists; reflexivity | split; reflexivity
        | left; pick | right; pick ].

Lemma dispatch_cases (env : Env) (req : Request) :
  exists r, answers (dispatch env req) r /\
    (r = home_response \/ r = health_response env \/ r = user_response \/
     r = user_not_found_response \/ r = not_found_response \/
     (exists val, r = fault_response (decode_error val)) \/
     (method req = "OPTIONS" /\ r = options_response)).
Proof.
  destruct req as [m p].
  split_paths p; split_method m; open_dispatch.
  all: eexists; (split; [split; reflexivity|]); pick.
Qed.

(* ------------------------------------------------------------------ *)
(** ** Faults: from a route to the error handler *)

(** While a fault is held no route is entered, and the router hands the
    fault to the application. *)
Lemma router_next_held stack env req res e options :
  router_next stack env req res (Some e) options = (res, RDone (Some e)).
Proof.
  revert options. induction stack as [|route stack IH]; intros options.
  - rewrite router_next_nil. unfold router_done.
    destruct (String.eqb (method req) "OPTIONS"); reflexivity.
  - rewrite router_next_cons. cbn.
    destruct (match_path (r_path route) (path req)); apply IH.
Qed.

Lemma router_next_skip pre stack env req res options :
  Forall (fun r => match_path (r_path r) (path req) = NoMatch) pre ->
  router_next (pre ++ stack)%list env req res None options =
  router_next stack env req res None options.
Proof.
  induction 1 as [|r pre Hr _ IH]; [reflexivity|].
  rewrite <- app_comm_cons, router_next_cons, Hr. exact IH.
Qed.

(** The fault of the handler of the first route on the path of the
    request reaches the application. *)
Lemma handler_fault_reaches_app pre route post env req res ps res' e :
  Forall (fun r => match_path (r_path r) (path req) = NoMatch) pre ->
  match_path (r_path route) (path req) = Matched ps ->
  String.eqb (r_method route) (effective_method route (method req)) = true ->
  r_handler route env req ps res = (res', Threw e) ->
  router_handle (pre ++ route :: post)%list env req res = (res', RDone (Some e)).
Proof.
  intros Hpre Hm Hh He. unfold router_handle.
  rewrite router_next_skip by exact Hpre.
  rewrite router_next_cons, Hm. cbn.
  assert (Hs : handles_method route (method req) = true).
  { unfold handles_method. now rewrite String.eqb_sym, Hh. }
  rewrite Hs. cbn.
  unfold route_dispatch. rewrite Hh, He. apply router_next_held.
Qed.

(** The stack of [app.js], read from the outcome of the router. *)
Lemma handle_app_of r env req :
  handle (app_of r) env req =
  match router_handle r env req res0 with
  | (res', RStopped) => (res', Stopped)
  | (res', RDone err) =>
      app_next [UseError error_handler; Use not_found] env req res' err
  end.
Proof. reflexivity. Qed.

(** What the error handler does with a fault, by the state of the
    response: it answers, or [res.json] raises. *)
Lemma error_handler_cases e env req res :
  error_handler e env req res =
  match out res with
  | _ :: _ => (res_status (selected e) res, Threw headers_sent)
  | [] =>
      if valid_status_code (selected e) then
        ({| statusCode := selected e; out := [fault_response e] |}, Returned)
      else
        (res_status (selected e) res, Threw (invalid_status_code (selected e)))
  end.
Proof. unfold error_handler, res_json, res_end. cbn. reflexivity. Qed.


Arguments error_handler : simpl never.
Arguments not_found : simpl never.

Lemma fault_answered r env req res' e :
  router_handle r env req res0 = (res', RDone (Some e)) ->
  out res' = [] ->
  valid_status_code (selected e) = true ->
  answers (handle (app_of r) env req) (fault_response e).
Proof.
  intros Hr Hout Hv. rewrite handle_app_of, Hr. cbn.
  rewrite error_handler_cases, Hout, Hv. split; reflexivity.
Qed.













(** The layers of the framework that hand the request on leave the run to
    the router and the two last layers. *)
Lemma app_with_hands_on (j u s : Middleware) (r : Router) env req :
  hands_on j env req -> hands_on u env req -> hands_on s env req ->
  handle (app_with j u s r) env req = handle (app_of r) env req.
Proof.
  intros Hj Hu Hs. unfold handle, app_with, app_of.
  cbn. rewrite Hj. cbn. rewrite Hu. cbn. rewrite Hs. reflexivity.
Qed.

(** A fault of one of these layers goes to the error handler: the layers
    after it and the router are passed over. *)
Lemma app_with_rejects (j u s : Middleware) (r : Router) env req e :
  rejects j env req e \/
  (hands_on j env req /\ rejects u env req e) \/
  (hands_on j env req /\ hands_on u env req /\ rejects s env req e) ->
  handle (app_with j u s r) env req =
  app_next [UseError error_handler; Use not_found] env req res0 (Some e).
Proof.
  unfold handle, app_with.
  intros [Hj|[[Hj Hu]|[Hj [Hu Hs]]]]; cbn; rewrite Hj; cbn;
    try reflexivity; rewrite Hu; cbn; try reflexivity;
    rewrite Hs; reflexivity.
Qed.

Lemma rejected_answered (j u s : Middleware) (r : Router) env req e :
  rejects j env req e \/
  (hands_on j env req /\ rejects u env req e) \/
  (hands_on j env req /\ hands_on u env req /\ rejects s env req e) ->
  valid_status_code (selected e) = true ->
  answers (handle (app_with j u s r) env req) (fault_response e).
Proof.
  intros H Hv. rewrite (app_with_rejects j u s r env req e H). cbn.
  rewrite error_handler_cases. cbn. rewrite Hv. split; reflexivity.
Qed.




(* ------------------------------------------------------------------ *)
(** ** The routes of the application *)

(** The four scenarios of the test suite, and three requests beside them. *)
Example scenario_home :
  answers (dispatch env0 (GET "/")) home_response.
Proof. split; reflexivity. Qed.

Example scenario_user :
  answers (dispatch env0 (GET "/api/users/123")) user_response.
Proof. split; reflexivity. Qed.

Example scenario_unknown_user :
  answers (dispatch env0 (GET "/api/users/999")) user_not_found_response.
Proof. split; reflexivity. Qed.

Example scenario_unknown_path :
  answers (dispatch env0 (GET "/nonexistent")) not_found_response.
Proof. split; reflexivity. Qed.

Example scenario_encoded_id :
  answers (dispatch env0 (GET "/API/Users/%31%32%33/")) user_response.
Proof. split; reflexivity. Qed.

Example scenario_post :
  answers (dispatch env0 {| method := "POST"; path := "/" |}) not_found_response.
Proof. split; reflexivity. Qed.

Example scenario_head :
  answers (dispatch env0 {| method := "HEAD"; path := "/" |}) home_response.
Proof. split; reflexivity. Qed.

Ltac facts_in H :=
  cbn in H; rewrite ?handles_get in H;
  repeat match type of H with
  | context [match_path ?a ?b] =>
      match goal with
      | F : match_path a b = _ |- _ => rewrite F in H
      end
  | context [get_or_head ?m] =>
      match goal with
      | F : get_or_head m = _ |- _ => rewrite F in H
      end
  end;
  cbn in H.

(** C2, as stated, fails: an OPTIONS request on the path of a route
    matches no route (all three are GET routes) and is answered by the
    router with 200 and the methods allowed on that path.  So does a POST
    request on the users path with an id that does not decode: no route
    takes it, and it is answered with 400.  So does a POST request on [/]
    whose body the JSON parser rejects: no route takes it, its path
    decodes, and the error handler answers it with 400. *)
Lemma C2_options_counterexample :
  routed (OPTIONS "/") = false /\
  answers (dispatch env0 (OPTIONS "/")) options_response /\
  ~ answers (dispatch env0 (OPTIONS "/")) not_found_response /\
  routed {| method := "POST"; path := "/api/users/%zz" |} = false /\
  answers (dispatch env0 {| method := "POST"; path := "/api/users/%zz" |})
    (fault_response (decode_error "%zz")) /\
  status (fault_response (decode_error "%zz")) = JNum 400 /\
  routed (POST "/") = false /\
  undecodable (POST "/") = false /\
  answers (handle (app_with (rejecting bad_json) urlencoded (static "public")
                     routes) env0 (POST "/"))
    {| status := JNum 400;
       body := error_body (JStr "Unexpected end of JSON input") |}.
Proof.
  split; [reflexivity|]. split; [split; reflexivity|]. split.
  - intros [H _]. vm_compute in H. discriminate H.
  - split; [reflexivity|]. split; [split; reflexivity |].
    split; [reflexivity|]. split; [reflexivity|]. split; [reflexivity|].
    split; reflexivity.
Qed.

Lemma unrouted_not_found (env : Env) (req : Request) :
  routed req = false ->
  undecodable req = false ->
  (method req = "OPTIONS" -> on_route_path req = false) ->
  answers (dispatch env req) not_found_response.
Proof.
  destruct req as [m p]. unfold routed, undecodable, on_route_path, route_takes.
  intros H1 H2 H3. cbn [method] in H3.
  split_paths p; split_method m;
    try (specialize (H3 eq_refl));
    facts_in H1; facts_in H2; try facts_in H3;
    try discriminate;
    open_dispatch; split; reflexivity.
Qed.

(** C2 (amended): a request that the body parsers and the static-file
    middleware hand on and that no route takes is answered with 404 and
    [{error: {message: "Not Found"}}], provided its path holds no
    parameter that fails to decode and, for the method OPTIONS, fits the
    pattern of no route. *)
Theorem C2_unrouted_request_not_found
    (j u s : Middleware) (env : Env) (req : Request) :
  hands_on j env req -> hands_on u env req -> hands_on s env req ->
  routed req = false ->
  undecodable req = false ->
  (method req = "OPTIONS" -> on_route_path req = false) ->
  answers (handle (app_with j u s routes) env req) not_found_response.
Proof.
  intros Hj Hu Hs H1 H2 H3.
  rewrite (app_with_hands_on j u s routes env req Hj Hu Hs).
  exact (unrouted_not_found env req H1 H2 H3).
Qed.

Lemma C2_unrouted_request_not_found_witness :
  routed (GET "/nonexistent") = false /\
  undecodable (GET "/nonexistent") = false /\
  answers (handle (app_with json urlencoded (static "public") routes)
             env0 (GET "/nonexistent"))
    not_found_response.
Proof.
  split; [reflexivity|]. split; [reflexivity|].
  apply (C2_unrouted_request_not_found json urlencoded (static "public")
           env0 (GET "/nonexistent"));
    [intros res; reflexivity | intros res; reflexivity | intros res; reflexivity
    | reflexivity | reflexivity | discriminate].
Defined.







(** C5, as stated, fails: the answer of the router to an OPTIONS request
    on the path of a route is a text, under the status 200: neither a
    JSON object nor an error envelope. *)
Lemma C5_options_counterexample :
  answers (dispatch env0 (OPTIONS "/")) options_response /\
  ~ success_shape options_response /\
  ~ error_shape options_response.
Proof.
  split; [split; reflexivity|]. split.
  - intros [_ [props H]]. discriminate H.
  - intros [H _]. discriminate H.
Qed.

(** C5 (amended): every request is answered once, under one status,
    with a JSON object under a 2xx status, or with the envelope
    [{error: {message: <string>}}] under a status that is not 2xx, or,
    for the method OPTIONS, with the list of allowed methods as a text
    under the status 200. *)
Theorem C5_one_response_of_known_shape (env : Env) (req : Request) :
  exists r, answers (dispatch env req) r /\
    (success_shape r \/ error_shape r \/
     (method req = "OPTIONS" /\ r = options_response)).
Proof.
  destruct (dispatch_cases env req) as [r [Ha Hc]].
  exists r. split; [exact Ha|].
  destruct Hc as [->|[->|[->|[->|[->|[[val ->]|[Hm ->]]]]]]].
  - left. split; [reflexivity | eexists; reflexivity].
  - left. split; [reflexivity | eexists; reflexivity].
  - left. split; [reflexivity | eexists; reflexivity].
  - right; left. split; [reflexivity | eexists; reflexivity].
  - right; left. split; [reflexivity | eexists; reflexivity].
  - right; left. split; [reflexivity | eexists; reflexivity].
  - right; right. split; [exact Hm | reflexivity].
Qed.

(** C9, as stated, fails: an id that is no valid percent-encoding makes
    the router raise a fault before the handler runs; the error handler
    answers it, with the status 400.  So does a body that the JSON parser
    rejects, on a path that decodes.  And a handler raises when it is
    given a response object under which a response was sent. *)
Lemma C9_undecodable_id_counterexample :
  router_handle routes env0 (GET "/api/users/%zz") res0
    = (res0, RDone (Some (decode_error "%zz"))) /\
  answers (dispatch env0 (GET "/api/users/%zz"))
    {| status := JNum 400;
       body := error_body (JStr "Failed to decode param '%zz'") |} /\
  JNum 400 <> JNum 200 /\ JNum 400 <> JNum 404 /\
  undecodable (POST "/") = false /\
  answers (handle (app_with (rejecting bad_json) urlencoded (static "public")
                     routes) env0 (POST "/"))
    (fault_response bad_json) /\
  status (fault_response bad_json) = JNum 400 /\
  snd (home env0 (GET "/") [] {| statusCode := JNum 200; out := [home_response] |})
    = Threw headers_sent.
Proof.
  split; [reflexivity|]. split; [split; reflexivity|].
  split; [discriminate|]. split; [discriminate|].
  split; [reflexivity|]. split; [split; reflexivity |].
  split; reflexivity.
Qed.

(** On a response object under which nothing was sent and whose status
    code is valid, as the router receives it, the handlers send and
    return. *)
Lemma handlers_return (env : Env) (req : Request) (ps : Params) (res : Res) :
  out res = [] ->
  valid_status_code (statusCode res) = true ->
  snd (home env req ps res) = Returned /\
  snd (health env req ps res) = Returned /\
  snd (user env req ps res) = Returned.
Proof.
  intros Ho Hv.
  unfold home, health, user, res_json, res_end.
  destruct (strict_eq_str (param ps "id") "123");
    cbn; rewrite Ho, ?Hv, ?valid_404; repeat split.
Qed.

Lemma statuses_of_dispatch (env : Env) (req : Request) :
  exists r, answers (dispatch env req) r /\
    (status r = JNum 200 \/ status r = JNum 404 \/
     (status r = JNum 400 /\ undecodable req = true)) /\
    status r <> JNum 500.
Proof.
  destruct req as [m p].
  split_paths p; split_method m; open_dispatch;
    (eexists; split; [split; reflexivity|]; cbn; split; [|discriminate]);
    first [ left; reflexivity
          | right; left; reflexivity
          | right; right; split; [reflexivity|];
            unfold undecodable; cbn; use_facts; reflexivity ].
Qed.

(** C9 (amended): none of the three handlers raises a fault or calls
    [next] (on a response object under which nothing was sent and whose
    status code is valid); a request that the body parsers and the
    static-file middleware hand on is answered with the status 200 or 404,
    or, when a parameter of its path does not decode, with the status 400
    from the error handler, and never with 500; a request that one of
    these three layers rejects with a fault is answered by the error
    handler, with the status selected from that fault when it is a valid
    status code. *)
Theorem C9_statuses_of_the_application (env : Env) (req : Request) :
  (forall ps res,
     out res = [] ->
     valid_status_code (statusCode res) = true ->
     snd (home env req ps res) = Returned /\
     snd (health env req ps res) = Returned /\
     snd (user env req ps res) = Returned) /\
  (forall j u s,
     hands_on j env req -> hands_on u env req -> hands_on s env req ->
     exists r, answers (handle (app_with j u s routes) env req) r /\
       (status r = JNum 200 \/ status r = JNum 404 \/
        (status r = JNum 400 /\ undecodable req = true)) /\
       status r <> JNum 500) /\
  (forall j u s e,
     rejects j env req e \/
     (hands_on j env req /\ rejects u env req e) \/
     (hands_on j env req /\ hands_on u env req /\ rejects s env req e) ->
     valid_status_code (selected e) = true ->
     answers (handle (app_with j u s routes) env req)
       {| status := selected e; body := error_body (prop e "message") |}).
Proof.
  split; [intros ps res; apply handlers_return|]. split.
  - intros j u s Hj Hu Hs.
    rewrite (app_with_hands_on j u s routes env req Hj Hu Hs).
    apply statuses_of_dispatch.
  - intros j u s e H Hv. exact (rejected_answered j u s routes env req e H Hv).
Qed.



(* ------------------------------------------------------------------ *)
(** ** The uptime along a run *)






(* ------------------------------------------------------------------ *)
(** ** Which paths the routes take *)

















Lemma health_excludes_home (p : string) :
  match_path "/api/health" p <> NoMatch -> match_path "/" p = NoMatch.
Proof.
  intros H. destruct (match_path_home p) as [E|[_ [->| ->]]]; [exact E| |];
    exfalso; apply H; reflexivity.
Qed.

(** The patterns of the three routes exclude one another. *)
Lemma routes_exclusive (p : string) :
  (match_path "/" p = NoMatch /\ match_path "/api/health" p = NoMatch /\
   match_path "/api/users/:id" p = NoMatch) \/
  (match_path "/" p = Matched [] /\ (p = "" \/ p = "/") /\
   match_path "/api/health" p = NoMatch /\
   match_path "/api/users/:id" p = NoMatch) \/
  (match_path "/" p = NoMatch /\ match_path "/api/health" p = Matched [] /\
   match_path "/api/users/:id" p = NoMatch) \/
  (match_path "/" p = NoMatch /\ match_path "/api/health" p = NoMatch /\
   exists v, match_path "/api/users/:id" p = Matched [("id", v)]) \/
  (match_path "/" p = NoMatch /\ match_path "/api/health" p = NoMatch /\
   exists val, match_path "/api/users/:id" p = MatchError (decode_error val)).
Proof.
  destruct (match_path_users p) as [Hu|[[v Hu]|[val Hu]]].
  - destruct (match_path_health p) as [Hh|Hh].
    + destruct (match_path_home p) as [H|[H Hp]]; [left | right; left]; auto.
    + right; right; left. repeat split; auto.
      apply health_excludes_home. rewrite Hh. discriminate.
  - destruct (users_excludes p) as [H1 H2]; [rewrite Hu; discriminate|].
    right; right; right; left. eauto.
  - destruct (users_excludes p) as [H1 H2]; [rewrite Hu; discriminate|].
    right; right; right; right. eauto.
Qed.

Ltac split_routes p :=
  let Hhome := fresh "Hhome" in
  let Hhealth := fresh "Hhealth" in
  let Husers := fresh "Husers" in
  let Hp := fresh "Hp" in
  destruct (routes_exclusive p)
    as [[Hhome [Hhealth Husers]]
       |[[Hhome [Hp [Hhealth Husers]]]
        |[[Hhome [Hhealth Husers]]
         |[[Hhome [Hhealth [? Husers]]]
          |[Hhome [Hhealth [? Husers]]]]]]].





(* ------------------------------------------------------------------ *)
(** ** The three routes, path by path *)















(* ------------------------------------------------------------------ *)
(** ** Methods, and the order of the routes *)

(** X8: a HEAD request is handled as the GET request on the same path:
    the same handler runs and the same status and body are handed to the
    response. *)
Theorem X8_head_served_as_get (env : Env) (p : string) :
  dispatch env {| method := "HEAD"; path := p |} = dispatch env (GET p).
Proof.
  assert (E1 : get_or_head "HEAD" = true) by reflexivity.
  assert (E2 : get_or_head "GET" = true) by reflexivity.
  unfold GET. split_routes p; open_dispatch; reflexivity.
Qed.



Lemma perm3 {A : Type} (a b c : A) (l : list A) :
  Permutation l [a; b; c] ->
  l = [a; b; c] \/ l = [a; c; b] \/ l = [b; a; c] \/
  l = [b; c; a] \/ l = [c; a; b] \/ l = [c; b; a].
Proof.
  intros H.
  pose proof (Permutation_length H) as Hl.
  destruct l as [|x [|y [|z [|w l]]]]; try discriminate Hl. clear Hl.
  assert (Hx : In x [a; b; c]) by (apply (Permutation_in _ H); now left).
  destruct Hx as [E|[E|[E|[]]]]; subst x.
  - apply Permutation_cons_inv in H. apply Permutation_sym in H.
    apply Permutation_length_2_inv in H.
    destruct H as [H|H]; injection H as -> ->; tauto.
  - assert (H' : Permutation (b :: [y; z]) (b :: [a; c])).
    { eapply perm_trans; [exact H|]. apply perm_swap. }
    apply Permutation_cons_inv in H'. apply Permutation_sym in H'.
    apply Permutation_length_2_inv in H'.
    destruct H' as [H'|H']; injection H' as -> ->; tauto.
  - assert (H' : Permutation (c :: [y; z]) (c :: [a; b])).
    { eapply perm_trans; [exact H|].
      eapply perm_trans; [apply perm_skip, perm_swap | apply perm_swap]. }
    apply Permutation_cons_inv in H'. apply Permutation_sym in H'.
    apply Permutation_length_2_inv in H'.
    destruct H' as [H'|H']; injection H' as -> ->; tauto.
Qed.

(** X10: no route shadows another: with the three routes registered in
    any other order the application answers every request as it does. *)
Theorem X10_route_order_is_immaterial (rs : Router) (env : Env) (req : Request) :
  Permutation rs routes ->
  handle (app_of rs) env req = dispatch env req.
Proof.
  intros H. apply perm3 in H. destruct req as [m p].
  destruct H as [->|[->|[->|[->|[->| ->]]]]];
    split_routes p; split_method m; open_dispatch; reflexivity.
Qed.

Lemma X10_route_order_is_immaterial_witness :
  handle (app_of (rev routes)) env0 (GET "/api/users/123")
  = dispatch env0 (GET "/api/users/123").
Proof.
  apply (X10_route_order_is_immaterial (rev routes) env0 (GET "/api/users/123")).
  apply Permutation_sym, Permutation_rev.
Defined.

(* ------------------------------------------------------------------ *)
(** ** The last two layers, for any layers before them *)



(** X13: a fault that has no [message], and whose selected status is a
    valid status code, is answered with an envelope whose [message] is
    [undefined]; in the JSON text the member is left out and the body
    reads [{"error":{}}]. *)
Theorem X13_fault_without_message (iso : Z -> string)
    (r : Router) (env : Env) (req : Request) (res' : Res) (e : Fault) :
  router_handle r env req res0 = (res', RDone (Some e)) ->
  out res' = [] ->
  valid_status_code (selected e) = true ->
  lookup "message" e = None ->
  exists resp,
    answers (handle (app_of r) env req) resp /\
    body resp = error_body JUndefined /\
    (forall v, body resp = Json v ->
       json_round_trip iso v = JObj [("error", JObj [])]).
Proof.
  intros Hr Ho Hv Hm. exists (fault_response e).
  split; [exact (fault_answered r env req res' e Hr Ho Hv)|].
  unfold fault_response, prop. rewrite Hm. cbn. split; [reflexivity|].
  intros v [= <-]. reflexivity.
Qed.

Lemma X13_fault_without_message_witness :
  exists resp,
    answers (handle (app_of (faulty [("status", JNum 503)])) env0 (GET "/")) resp /\
    status resp = JNum 503 /\
    body resp = error_body JUndefined.
Proof.
  destruct (X13_fault_without_message (fun _ => "")
              (faulty [("status", JNum 503)]) env0 (GET "/") res0
              [("status", JNum 503)] eq_refl eq_refl eq_refl eq_refl)
    as [resp [Ha [Hb _]]].
  exists resp. split; [exact Ha|]. split; [|exact Hb].
  destruct Ha as [Ho _]. cbn in Ho. injection Ho as <-. reflexivity.
Defined.
